(** * Anchor validation for CSS anchor positioning (src/validate.ts)

    A shallow embedding of the anchor validator: the host document is a
    read-only snapshot addressed through element handles, the [while] loop
    over the containing-block chain is run on fuel, and the one host call
    that may throw ([document.querySelectorAll]) returns a sum. *)

From Stdlib Require Import ZArith Lia.
From stdpp Require Import base decidable option list strings.

Open Scope string_scope.
Open Scope list_scope.

(** ** Host values *)

(** An [HTMLElement] reference.  Two references are [===] exactly when the
    handles are equal. *)
Definition Element := nat.

(** The exception value a host call throws (a [DOMException]): its name and
    its message. *)
Record DOMException := mkDOMException { exnName : string; exnMessage : string }.

(** The snapshot of the host document and of the runtime that one call reads.
    Every field is one of the host primitives used by validate.ts. *)
Record Document := mkDocument {
  (** [el.style.position] *)
  stylePosition : Element -> string;
  (** [getComputedStyle(el).position] *)
  computedPosition : Element -> string;
  (** [el.style.display] *)
  styleDisplay : Element -> string;
  (** [getComputedStyle(el).display] *)
  computedDisplay : Element -> string;
  (** [el.offsetParent], [None] for [null] *)
  offsetParent : Element -> option Element;
  (** [el.parentElement], [None] for [null] *)
  parentElement : Element -> option Element;
  (** [p.contains(a)] *)
  contains : Element -> Element -> bool;
  (** [document.querySelectorAll(sel)]: the matches in document order, or the
      exception thrown for a selector the host rejects *)
  querySelectorAll : string -> DOMException + list Element;
  (** [document.querySelector('body')], [None] for [null] *)
  body : option Element;
  (** [navigator.userAgent] *)
  userAgent : string
}.

(** ** The pieces of the JavaScript library the code calls *)

Module JS.

(** [Array.prototype.join] on an array of strings. *)
Fixpoint join (sep : string) (l : list string) : string :=
  match l with
  | [] => ""
  | x :: rest =>
      match rest with
      | [] => x
      | _ :: _ => x +:+ sep +:+ join sep rest
      end
  end.

(** [String.prototype.includes]: [needle] occurs somewhere in [hay]. *)
Fixpoint includes (needle hay : string) : bool :=
  String.prefix needle hay ||
  match hay with
  | EmptyString => false
  | String _ rest => includes needle rest
  end.

(** [arr[i]] for an integer index: [undefined] (here [None]) when [i] is
    negative or past the end. *)
Definition index {A} (arr : list A) (i : Z) : option A :=
  if (i <? 0)%Z then None else arr !! Z.to_nat i.

(** [a === b] on possibly-null element references. *)
Definition strictEq (a b : option Element) : bool := bool_decide (a = b).

End JS.

(** ** Positioning probe *)

(** [isAbsolutelyPositioned(el)], source lines 25-31. *)
Definition isAbsolutelyPositioned (d : Document) (el : option Element) : bool :=
  match el with
  | None => false
  | Some el =>
      String.eqb (stylePosition d el) "absolute" ||
      String.eqb (computedPosition d el) "absolute"
  end.

(** [hasDisplayNone(el)], source lines 33-38. *)
Definition hasDisplayNone (d : Document) (el : option Element) : bool :=
  match el with
  | None => false
  | Some el =>
      String.eqb (styleDisplay d el) "none" ||
      String.eqb (computedDisplay d el) "none"
  end.

(** ** Initial-containing-block detector *)

(** The local [cbIsBodyElementFromFF], source lines 50-52. *)
Definition cbIsBodyElementFromFF (d : Document) (floatingElement : Element) : bool :=
  JS.strictEq (offsetParent d floatingElement) (body d) &&
  JS.includes "Firefox" (userAgent d).

(** The local [isDisplayNone], source lines 46-48. *)
Definition isDisplayNone (d : Document) (floatingElement : Element) : bool :=
  hasDisplayNone d (Some floatingElement) ||
  hasDisplayNone d (parentElement d floatingElement).

(** [isContainingBlockICB(floatingElement)], source lines 45-61. *)
Definition isContainingBlockICB (d : Document) (floatingElement : Element) : bool :=
  let offsetParentNullOrBody :=
    JS.strictEq (offsetParent d floatingElement) None ||
    cbIsBodyElementFromFF d floatingElement in
  if offsetParentNullOrBody && negb (isDisplayNone d floatingElement)
  then true
  else false.

(** ** Anchor validity predicate *)

(** The [while] loop of source lines 86-89.  [anchorCBchain] is the array
    built so far, [currentCB] the loop variable and [stop] the value of
    [floating.offsetParent].  One unit of fuel is spent per iteration; [None]
    means the fuel ran out before the loop condition became false. *)
Fixpoint walkCBchain (fuel : nat) (d : Document) (stop currentCB : option Element)
    (anchorCBchain : list Element) : option (list Element) :=
  match currentCB with
  | None => Some anchorCBchain
  | Some cb =>
      if JS.strictEq (Some cb) stop then Some anchorCBchain
      else
        match fuel with
        | O => None
        | S fuel' =>
            walkCBchain fuel' d stop (offsetParent d cb) (anchorCBchain ++ [cb])
        end
  end.

(** The chain built by source lines 83-89: the loop started at
    [anchor.offsetParent] with the empty array. *)
Definition anchorCBchain (fuel : nat) (d : Document) (anchor floating : Element)
    : option (list Element) :=
  walkCBchain fuel d (offsetParent d floating) (offsetParent d anchor) [].

(** The local [lastInChain], source line 91. *)
Definition lastInChain (chain : list Element) : option Element :=
  JS.index chain (Z.of_nat (length chain) - 1).

(** The local [isDescendant], source line 100:
    [Boolean(floating.offsetParent?.contains(anchor))]. *)
Definition isDescendant (d : Document) (anchor floating : Element) : bool :=
  match offsetParent d floating with
  | None => false
  | Some cb => contains d cb anchor
  end.

(** Source lines 68-75, the condition of the first [if]: the anchor is
    absolutely positioned and has the same containing block as the floating
    element. *)
Definition sameCBAndAbsolute (d : Document) (anchor floating : Element) : bool :=
  isAbsolutelyPositioned d (Some anchor) &&
  JS.strictEq (offsetParent d anchor) (offsetParent d floating).

(** Source lines 77-95, the second [if]: [Some true] when the block executes
    [return false], [Some false] when control leaves it, [None] when the chain
    walk runs out of fuel. *)
Definition chainTailAbsolute (fuel : nat) (d : Document) (anchor floating : Element)
    : option bool :=
  if negb (JS.strictEq (offsetParent d anchor) (offsetParent d floating))
  then
    match anchorCBchain fuel d anchor floating with
    | None => None
    | Some chain => Some (isAbsolutelyPositioned d (lastInChain chain))
    end
  else Some false.

(** Source lines 97-107: the last of the three checks. *)
Definition descendantOrICB (d : Document) (anchor floating : Element) : bool :=
  let floatingCBIsInitialCB := isContainingBlockICB d floating in
  if isDescendant d anchor floating || floatingCBIsInitialCB then true else false.

(** [isValidAnchorElement(anchor, floating)], source lines 64-108.  [None]
    when the chain walk runs out of fuel. *)
Definition isValidAnchorElement (fuel : nat) (d : Document) (anchor floating : Element)
    : option bool :=
  if sameCBAndAbsolute d anchor floating then Some false
  else
    match chainTailAbsolute fuel d anchor floating with
    | None => None
    | Some true => Some false
    | Some false => Some (descendantOrICB d anchor floating)
    end.

(** ** Candidate lookup *)

(** How a call ends: it returns a value, throws, or its model ran out of
    fuel. *)
Inductive Completion (A : Type) : Type :=
| Return (a : A)
| Throw (e : DOMException)
| OutOfFuel.
Arguments Return {A} a.
Arguments Throw {A} e.
Arguments OutOfFuel {A}.

(** A run of the lookup: the selector strings passed to
    [document.querySelectorAll], in call order, and how the call ended. *)
Record Run (A : Type) := mkRun {
  queries : list string;
  completion : Completion A
}.
Arguments mkRun {A} queries completion.
Arguments queries {A} r.
Arguments completion {A} r.

(** The [for ... of] loop of source lines 16-22. *)
Fixpoint firstValidAnchor (fuel : nat) (d : Document) (floatingEl : Element)
    (anchorElements : list Element) : Completion (option Element) :=
  match anchorElements with
  | [] => Return None
  | anchor :: rest =>
      match isValidAnchorElement fuel d anchor floatingEl with
      | None => OutOfFuel
      | Some true => Return (Some anchor)
      | Some false => firstValidAnchor fuel d floatingEl rest
      end
  end.

(** [validatedForPositioning(floatingEl, anchorSelectors)], source lines 4-23. *)
Definition validatedForPositioning (fuel : nat) (d : Document)
    (floatingEl : option Element) (anchorSelectors : list string)
    : Run (option Element) :=
  match floatingEl with
  | None => mkRun [] (Return None)
  | Some floatingEl =>
      let selector := JS.join ", " anchorSelectors in
      match querySelectorAll d selector with
      | inl e => mkRun [selector] (Throw e)
      | inr anchorElements =>
          mkRun [selector] (firstValidAnchor fuel d floatingEl anchorElements)
      end
  end.

(** ** Derived notions used in the statements *)

(** What the loop of source lines 85-89 computes, as a relation: the nodes
    met from [currentCB] on by following [offsetParent], up to but excluding
    the first node that equals [stop], or up to the end of the chain. *)
Inductive CBChain (d : Document) (stop : option Element)
    : option Element -> list Element -> Prop :=
| CBChain_null : CBChain d stop None []
| CBChain_reached cb :
    Some cb = stop -> CBChain d stop (Some cb) []
| CBChain_step cb rest :
    Some cb <> stop ->
    CBChain d stop (offsetParent d cb) rest ->
    CBChain d stop (Some cb) (cb :: rest).

(** An element is shown with [display: none] by its inline style or by its
    computed style. *)
Definition displayNone (d : Document) (el : Element) : Prop :=
  styleDisplay d el = "none" \/ computedDisplay d el = "none".

(** A node of the chain other than its tail. *)
Definition intermediate (chain : list Element) (el : Element) : Prop :=
  el ∈ chain /\ last chain <> Some el.

(** [d'] is [d] with the inline and computed position changed at most at the
    elements satisfying [P]; everything else an anchor validation reads is
    the same. *)
Record samePositionsOutside (P : Element -> Prop) (d d' : Document) : Prop := {
  spo_stylePosition : forall el, ~ P el -> stylePosition d' el = stylePosition d el;
  spo_computedPosition :
    forall el, ~ P el -> computedPosition d' el = computedPosition d el;
  spo_styleDisplay : forall el, styleDisplay d' el = styleDisplay d el;
  spo_computedDisplay : forall el, computedDisplay d' el = computedDisplay d el;
  spo_offsetParent : forall el, offsetParent d' el = offsetParent d el;
  spo_parentElement : forall el, parentElement d' el = parentElement d el;
  spo_contains : forall p a, contains d' p a = contains d p a;
  spo_body : body d' = body d;
  spo_userAgent : userAgent d' = userAgent d
}.

(** The snapshot [d] with [el.offsetParent] replaced by [cb]. *)
Definition withOffsetParent (d : Document) (el : Element) (cb : option Element)
    : Document :=
  {| stylePosition := stylePosition d;
     computedPosition := computedPosition d;
     styleDisplay := styleDisplay d;
     computedDisplay := computedDisplay d;
     offsetParent := fun e => if bool_decide (e = el) then cb else offsetParent d e;
     parentElement := parentElement d;
     contains := contains d;
     querySelectorAll := querySelectorAll d;
     body := body d;
     userAgent := userAgent d |}.

(** The snapshot [d] with the inline and computed position of [el] replaced. *)
Definition withPosition (d : Document) (el : Element) (inline computed : string)
    : Document :=
  {| stylePosition := fun e => if bool_decide (e = el) then inline else stylePosition d e;
     computedPosition :=
       fun e => if bool_decide (e = el) then computed else computedPosition d e;
     styleDisplay := styleDisplay d;
     computedDisplay := computedDisplay d;
     offsetParent := offsetParent d;
     parentElement := parentElement d;
     contains := contains d;
     querySelectorAll := querySelectorAll d;
     body := body d;
     userAgent := userAgent d |}.

(** ** A concrete page *)

Module Fixture.

(** Handles: 0 html, 1 body, 2 the floating element's containing block F,
    3 the block B inside F, 4 the block A inside B, 5 an anchor inside A,
    6 the floating element, 7 an absolutely positioned child of F,
    8 a statically positioned child of F, 9 a detached element. *)
Definition parentOf (e : Element) : option Element :=
  match e with
  | 1 => Some 0 | 2 => Some 1 | 3 => Some 2 | 4 => Some 3 | 5 => Some 4
  | 6 => Some 2 | 7 => Some 2 | 8 => Some 2
  | _ => None
  end.

Fixpoint isAncestorOrSelf (n : nat) (p a : Element) : bool :=
  bool_decide (p = a) ||
  match n with
  | O => false
  | S n' =>
      match parentOf a with
      | None => false
      | Some a' => isAncestorOrSelf n' p a'
      end
  end.

Definition syntaxError : DOMException :=
  mkDOMException "SyntaxError" "The provided selector is empty.".

Definition page (ua : string) : Document :=
  {| stylePosition := fun e => match e with 7 => "absolute" | _ => "" end;
     computedPosition :=
       fun e => match e with
                | 2 | 4 => "relative"
                | 3 | 7 => "absolute"
                | _ => "static"
                end;
     styleDisplay := fun _ => "";
     computedDisplay := fun e => match e with 9 => "none" | _ => "block" end;
     offsetParent :=
       fun e => match e with
                | 2 => Some 1 | 3 => Some 2 | 4 => Some 3 | 5 => Some 4
                | 6 => Some 2 | 7 => Some 2 | 8 => Some 2
                | _ => None
                end;
     parentElement := parentOf;
     contains := isAncestorOrSelf 10;
     querySelectorAll :=
       fun sel =>
         if String.eqb sel "" then inl syntaxError
         else if String.eqb sel ".tip, .note" then inr [7; 8]
         else inr [];
     body := Some 1;
     userAgent := ua |}.

Definition chrome : string :=
  "Mozilla/5.0 (X11; Linux x86_64) AppleWebKit/537.36 (KHTML, like Gecko) Chrome/120.0.0.0 Safari/537.36".
Definition firefox : string :=
  "Mozilla/5.0 (X11; Linux x86_64; rv:121.0) Gecko/20100101 Firefox/121.0".

(** The page as a host that breaks the acyclicity of containing blocks would
    report it: the blocks 3 and 4 are each other's containing-block parent. *)
Definition cyclicPage : Document := withOffsetParent (page chrome) 3 (Some 4).

(** The page with the floating element 6 placed in the initial containing
    block: it has no containing-block parent. *)
Definition fixedFloatingPage : Document := withOffsetParent (page chrome) 6 None.

(** The page with the floating element 6 hidden and, as hosts report for
    hidden elements, without a containing-block parent. *)
Definition hiddenFloatingPage : Document :=
  let d := withOffsetParent (page chrome) 6 None in
  {| stylePosition := stylePosition d;
     computedPosition := computedPosition d;
     styleDisplay := fun e => match e with 6 => "none" | _ => styleDisplay d e end;
     computedDisplay := computedDisplay d;
     offsetParent := offsetParent d;
     parentElement := parentElement d;
     contains := contains d;
     querySelectorAll := querySelectorAll d;
     body := body d;
     userAgent := userAgent d |}.

(** In this page every containing block has a smaller handle than the
    elements it contains. *)
Lemma page_depth ua (e p : Element) :
  offsetParent (page ua) e = Some p -> p < e.
Proof.
  simpl. do 9 (destruct e as [|e]; [intros [= <-]; lia || discriminate |]).
  discriminate.
Defined.

Example chain_of_anchor :
  anchorCBchain 5 (page chrome) 5 6 = Some [4; 3].
Proof. reflexivity. Qed.

Example tail_absolute_invalid :
  isValidAnchorElement 5 (page chrome) 5 6 = Some false.
Proof. reflexivity. Qed.

Example absolute_sibling_invalid :
  isValidAnchorElement 0 (page chrome) 7 6 = Some false.
Proof. reflexivity. Qed.

Example static_sibling_valid :
  isValidAnchorElement 0 (page chrome) 8 6 = Some true.
Proof. reflexivity. Qed.

Example out_of_fuel :
  isValidAnchorElement 1 (page chrome) 5 6 = None.
Proof. reflexivity. Qed.

Example lookup_second :
  validatedForPositioning 8 (page chrome) (Some 6) [".tip"; ".note"]
  = mkRun [".tip, .note"] (Return (Some 8)).
Proof. reflexivity. Qed.

Example lookup_empty_selectors :
  validatedForPositioning 8 (page chrome) (Some 6) []
  = mkRun [""] (Throw syntaxError).
Proof. reflexivity. Qed.

Example icb_chrome : isContainingBlockICB (page chrome) 2 = false.
Proof. reflexivity. Qed.

Example icb_firefox : isContainingBlockICB (page firefox) 2 = true.
Proof. reflexivity. Qed.

Example icb_display_none : isContainingBlockICB (page chrome) 9 = false.
Proof. reflexivity. Qed.

End Fixture.

(** ** Facts about the JavaScript pieces *)

Lemma strictEq_true (a b : option Element) : JS.strictEq a b = true <-> a = b.
Proof. unfold JS.strictEq. apply bool_decide_eq_true. Qed.

Lemma strictEq_false (a b : option Element) : JS.strictEq a b = false <-> a <> b.
Proof. unfold JS.strictEq. apply bool_decide_eq_false. Qed.

Lemma string_eqb_true (s t : string) : String.eqb s t = true <-> s = t.
Proof. apply String.eqb_eq. Qed.

(** Reading the array at [length - 1] is reading its last element, and gives
    [undefined] on the empty array (index [-1]). *)
Lemma lastInChain_last (chain : list Element) : lastInChain chain = last chain.
Proof.
  unfold lastInChain, JS.index.
  destruct chain as [|x chain]; [reflexivity|].
  replace (Z.of_nat (length (x :: chain)) - 1)%Z with (Z.of_nat (length chain))
    by (simpl length; lia).
  destruct (Z.ltb_spec (Z.of_nat (length chain)) 0) as [Hneg|_]; [lia|].
  rewrite Nat2Z.id, last_lookup. reflexivity.
Qed.

Lemma join_nil (sep : string) : JS.join sep [] = "".
Proof. reflexivity. Qed.

(** ** The chain walk *)

Section ChainWalk.

Variable d : Document.
Variable stop : option Element.

(** A finished walk has appended a chain in the sense of [CBChain]. *)
Lemma walkCBchain_sound (fuel : nat) :
  forall (currentCB : option Element) (acc result : list Element),
    walkCBchain fuel d stop currentCB acc = Some result ->
    exists chain, result = acc ++ chain /\ CBChain d stop currentCB chain.
Proof.
  induction fuel as [|fuel IH]; intros [cb|] acc result Hwalk; simpl in Hwalk.
  - destruct (JS.strictEq (Some cb) stop) eqn:Hstop; [|discriminate].
    injection Hwalk as <-. exists []. rewrite app_nil_r. split; [reflexivity|].
    apply CBChain_reached. by apply strictEq_true.
  - injection Hwalk as <-. exists []. rewrite app_nil_r.
    split; [reflexivity | constructor].
  - destruct (JS.strictEq (Some cb) stop) eqn:Hstop.
    + injection Hwalk as <-. exists []. rewrite app_nil_r. split; [reflexivity|].
      apply CBChain_reached. by apply strictEq_true.
    + apply IH in Hwalk as (chain & -> & Hchain).
      exists (cb :: chain). rewrite <- app_assoc. split; [reflexivity|].
      apply CBChain_step; [by apply strictEq_false | exact Hchain].
  - injection Hwalk as <-. exists []. rewrite app_nil_r.
    split; [reflexivity | constructor].
Qed.

(** The chain from a given node is unique. *)
Lemma CBChain_functional (currentCB : option Element) (l1 l2 : list Element) :
  CBChain d stop currentCB l1 -> CBChain d stop currentCB l2 -> l1 = l2.
Proof.
  intros H1. revert l2.
  induction H1 as [|cb Heq|cb rest Hne _ IH]; intros l2 H2; inversion H2; subst;
    try reflexivity; try contradiction.
  f_equal. by apply IH.
Qed.

(** No node of the chain is the stop node, and each one is present. *)
Lemma CBChain_not_stop (currentCB : option Element) (chain : list Element) :
  CBChain d stop currentCB chain -> forall cb, cb ∈ chain -> Some cb <> stop.
Proof.
  induction 1 as [|cb Heq|cb rest Hne _ IH]; intros x Hin.
  - by apply elem_of_nil in Hin.
  - by apply elem_of_nil in Hin.
  - apply elem_of_cons in Hin as [->|Hin]; [exact Hne | by apply IH].
Qed.

(** The walk stops where the claim says: past the tail of a non-empty
    chain there is no parent, or the stop node. *)
Lemma CBChain_after_tail (currentCB : option Element) (chain : list Element) :
  CBChain d stop currentCB chain ->
  forall tail, last chain = Some tail ->
    offsetParent d tail = None \/ offsetParent d tail = stop.
Proof.
  induction 1 as [|cb Heq|cb rest Hne Hrest IH]; intros tail Hlast;
    try discriminate.
  destruct rest as [|y rest].
  - simpl in Hlast. injection Hlast as <-.
    inversion Hrest as [Hnone|cb' Heq' Hsome|]; [by left | right; congruence].
  - apply IH. by rewrite last_cons_cons in Hlast.
Qed.

Section Depth.

(** The containing-block chains of the document are finite: some measure
    strictly decreases along [offsetParent]. *)
Variable depth : Element -> nat.
Hypothesis depth_decreases :
  forall el cb, offsetParent d el = Some cb -> depth cb < depth el.

(** With fuel above the depth of the start node the loop terminates. *)
Lemma walkCBchain_terminates (fuel : nat) :
  forall (currentCB : option Element) (acc : list Element),
    (forall cb, currentCB = Some cb -> depth cb < fuel) ->
    exists result, walkCBchain fuel d stop currentCB acc = Some result.
Proof.
  induction fuel as [|fuel IH]; intros [cb|] acc Hfuel; simpl;
    try (eexists; reflexivity).
  - specialize (Hfuel cb eq_refl). lia.
  - destruct (JS.strictEq (Some cb) stop); [eexists; reflexivity|].
    apply IH. intros cb' Hcb'. apply depth_decreases in Hcb'.
    specialize (Hfuel cb eq_refl). lia.
Qed.

End Depth.

End ChainWalk.

(** The walk reads nothing of the document but [offsetParent]. *)
Lemma walkCBchain_ext (d d' : Document) (stop : option Element) (fuel : nat) :
  (forall el, offsetParent d' el = offsetParent d el) ->
  forall currentCB acc,
    walkCBchain fuel d' stop currentCB acc = walkCBchain fuel d stop currentCB acc.
Proof.
  intros Hop. induction fuel as [|fuel IH]; intros [cb|] acc; simpl; try reflexivity.
  destruct (JS.strictEq (Some cb) stop); [reflexivity|].
  rewrite Hop. apply IH.
Qed.

(** With enough fuel the anchor's chain is computed, and it is the chain of
    [CBChain]. *)
Lemma anchorCBchain_computed (d : Document) (depth : Element -> nat)
    (depth_decreases : forall el cb, offsetParent d el = Some cb -> depth cb < depth el)
    (fuel : nat) (anchor floating : Element) :
  depth anchor <= fuel ->
  exists chain,
    anchorCBchain fuel d anchor floating = Some chain /\
    CBChain d (offsetParent d floating) (offsetParent d anchor) chain.
Proof.
  intros Hfuel. unfold anchorCBchain.
  destruct (walkCBchain_terminates d (offsetParent d floating) depth depth_decreases
              fuel (offsetParent d anchor) []) as [chain Hchain].
  { intros cb Hcb. apply depth_decreases in Hcb. lia. }
  exists chain. split; [exact Hchain|].
  apply walkCBchain_sound in Hchain as (l & -> & Hl). exact Hl.
Qed.

(** The validation itself always finishes on such fuel. *)
Lemma isValidAnchorElement_terminates (d : Document) (depth : Element -> nat)
    (depth_decreases : forall el cb, offsetParent d el = Some cb -> depth cb < depth el)
    (fuel : nat) (anchor floating : Element) :
  depth anchor <= fuel ->
  exists valid, isValidAnchorElement fuel d anchor floating = Some valid.
Proof.
  intros Hfuel. unfold isValidAnchorElement, chainTailAbsolute.
  destruct (sameCBAndAbsolute d anchor floating); [eexists; reflexivity|].
  destruct (negb _); [|eexists; reflexivity].
  destruct (anchorCBchain_computed d depth depth_decreases fuel anchor floating Hfuel)
    as (chain & -> & _).
  destruct (isAbsolutelyPositioned d (lastInChain chain)); eexists; reflexivity.
Qed.

(** The initial-containing-block test reads no position. *)
Lemma isContainingBlockICB_ext (P : Element -> Prop) (d d' : Document) (el : Element) :
  samePositionsOutside P d d' ->
  isContainingBlockICB d' el = isContainingBlockICB d el.
Proof.
  intros H. unfold isContainingBlockICB, cbIsBodyElementFromFF, isDisplayNone,
    hasDisplayNone.
  rewrite (spo_offsetParent _ _ _ H), (spo_body _ _ _ H), (spo_userAgent _ _ _ H),
    (spo_parentElement _ _ _ H), !(spo_styleDisplay _ _ _ H),
    !(spo_computedDisplay _ _ _ H).
  destruct (parentElement d el) as [p|]; [|reflexivity].
  by rewrite (spo_styleDisplay _ _ _ H), (spo_computedDisplay _ _ _ H).
Qed.

Lemma descendantOrICB_ext (P : Element -> Prop) (d d' : Document)
    (anchor floating : Element) :
  samePositionsOutside P d d' ->
  descendantOrICB d' anchor floating = descendantOrICB d anchor floating.
Proof.
  intros H. unfold descendantOrICB, isDescendant.
  rewrite (isContainingBlockICB_ext P d d' floating H), (spo_offsetParent _ _ _ H).
  destruct (offsetParent d floating); [|reflexivity].
  by rewrite (spo_contains _ _ _ H).
Qed.

(** ** The anchor validity predicate *)

(** C1.  When the containing-block parents of the anchor and of the floating
    element differ, the loop builds the chain that starts at the anchor's
    containing-block parent, follows [offsetParent], and stops at the floating
    element's containing-block parent or where no parent remains ([CBChain]);
    on fuel at least the depth of the anchor the loop finishes.  The result is
    [false] when the tail of that chain is absolutely positioned, and it is
    unchanged when the positions of chain nodes other than the tail change. *)
Theorem chain_tail_rule (d : Document) (depth : Element -> nat)
    (depth_decreases :
       forall el cb, offsetParent d el = Some cb -> depth cb < depth el)
    (fuel : nat) (anchor floating : Element) :
  offsetParent d anchor <> offsetParent d floating ->
  depth anchor <= fuel ->
  exists chain,
    anchorCBchain fuel d anchor floating = Some chain /\
    CBChain d (offsetParent d floating) (offsetParent d anchor) chain /\
    isValidAnchorElement fuel d anchor floating
      = Some (if isAbsolutelyPositioned d (last chain) then false
              else descendantOrICB d anchor floating) /\
    (forall tail,
        last chain = Some tail ->
        isAbsolutelyPositioned d (Some tail) = true ->
        isValidAnchorElement fuel d anchor floating = Some false) /\
    (forall d',
        samePositionsOutside (intermediate chain) d d' ->
        isValidAnchorElement fuel d' anchor floating
        = isValidAnchorElement fuel d anchor floating).
Proof.
  intros Hdiff Hfuel.
  destruct (anchorCBchain_computed d depth depth_decreases fuel anchor floating Hfuel)
    as (chain & Hwalk & Hchain).
  exists chain.
  assert (Hne : JS.strictEq (offsetParent d anchor) (offsetParent d floating) = false)
    by (by apply strictEq_false).
  assert (Hvalid : isValidAnchorElement fuel d anchor floating
                   = Some (if isAbsolutelyPositioned d (last chain) then false
                           else descendantOrICB d anchor floating)).
  { unfold isValidAnchorElement, sameCBAndAbsolute, chainTailAbsolute.
    rewrite Hne, andb_false_r. simpl. rewrite Hwalk, lastInChain_last.
    by destruct (isAbsolutelyPositioned d (last chain)). }
  split; [exact Hwalk|]. split; [exact Hchain|]. split; [exact Hvalid|]. split.
  - intros tail Htail Habs. rewrite Hvalid, Htail, Habs. reflexivity.
  - intros d' Hsame. rewrite Hvalid.
    unfold isValidAnchorElement, sameCBAndAbsolute, chainTailAbsolute, anchorCBchain.
    rewrite !(spo_offsetParent _ _ _ Hsame), Hne, andb_false_r. simpl.
    rewrite (walkCBchain_ext d d' _ fuel (spo_offsetParent _ _ _ Hsame)).
    fold (anchorCBchain fuel d anchor floating). rewrite Hwalk, lastInChain_last.
    rewrite (descendantOrICB_ext _ d d' anchor floating Hsame).
    assert (Htail : isAbsolutelyPositioned d' (last chain)
                    = isAbsolutelyPositioned d (last chain)).
    { destruct (last chain) as [tail|] eqn:Hlast; [|reflexivity]. simpl.
      assert (Hnot : ~ intermediate chain tail) by (intros [_ Hcontra]; congruence).
      by rewrite (spo_stylePosition _ _ _ Hsame tail Hnot),
        (spo_computedPosition _ _ _ Hsame tail Hnot). }
    rewrite Htail. by destruct (isAbsolutelyPositioned d (last chain)).
Qed.

(** C2.  An absolutely positioned anchor that has the same containing-block
    parent as the floating element is not a valid anchor. *)
Theorem same_cb_absolute_invalid (fuel : nat) (d : Document)
    (anchor floating : Element) :
  offsetParent d anchor = offsetParent d floating ->
  isAbsolutelyPositioned d (Some anchor) = true ->
  isValidAnchorElement fuel d anchor floating = Some false.
Proof.
  intros Hsame Habs. unfold isValidAnchorElement, sameCBAndAbsolute.
  rewrite Habs. apply strictEq_true in Hsame. rewrite Hsame. reflexivity.
Qed.

(** C3.  When neither of the first two checks rejects the anchor, the result
    is [true] exactly when the floating element's containing-block parent
    exists and contains the anchor, or the floating element's containing block
    is the initial one; with no containing-block parent the containment test
    is [false] and the result is that of [isContainingBlockICB]. *)
Theorem descendant_or_icb_fallback (fuel : nat) (d : Document)
    (anchor floating : Element) :
  sameCBAndAbsolute d anchor floating = false ->
  chainTailAbsolute fuel d anchor floating = Some false ->
  exists valid,
    isValidAnchorElement fuel d anchor floating = Some valid /\
    (valid = true <->
       (exists cb, offsetParent d floating = Some cb /\ contains d cb anchor = true) \/
       isContainingBlockICB d floating = true) /\
    (offsetParent d floating = None ->
       isDescendant d anchor floating = false /\
       valid = isContainingBlockICB d floating).
Proof.
  intros Hrule1 Hrule2. exists (descendantOrICB d anchor floating).
  unfold isValidAnchorElement. rewrite Hrule1, Hrule2.
  split; [reflexivity|]. unfold descendantOrICB, isDescendant. split.
  - destruct (offsetParent d floating) as [cb|]; simpl.
    + destruct (contains d cb anchor) eqn:Hcontains; simpl.
      * split; [|reflexivity]. intros _. left. by exists cb.
      * destruct (isContainingBlockICB d floating); split; try tauto.
        -- intros [(cb' & [= <-] & Hcontra)|?]; congruence.
    + destruct (isContainingBlockICB d floating); split; try tauto.
      intros [(cb' & ? & _)|?]; congruence.
  - intros ->. simpl. split; [reflexivity|].
    by destruct (isContainingBlockICB d floating).
Qed.

(** C6.  When the anchor has no containing-block parent and the floating
    element has one, the loop body never runs, the chain is empty, its tail is
    [undefined] and counts as not absolutely positioned: the second check
    lets the anchor through on any fuel and the result is that of the third
    check. *)
Theorem empty_chain_falls_through (fuel : nat) (d : Document)
    (anchor floating : Element) :
  offsetParent d anchor = None ->
  offsetParent d floating <> None ->
  anchorCBchain fuel d anchor floating = Some [] /\
  lastInChain [] = None /\
  isAbsolutelyPositioned d (lastInChain []) = false /\
  chainTailAbsolute fuel d anchor floating = Some false /\
  isValidAnchorElement fuel d anchor floating
  = Some (descendantOrICB d anchor floating).
Proof.
  intros Hnone Hsome.
  assert (Hwalk : anchorCBchain fuel d anchor floating = Some []).
  { unfold anchorCBchain. rewrite Hnone. by destruct fuel. }
  assert (Hne : JS.strictEq (offsetParent d anchor) (offsetParent d floating) = false).
  { apply strictEq_false. congruence. }
  assert (Hrule2 : chainTailAbsolute fuel d anchor floating = Some false).
  { unfold chainTailAbsolute. rewrite Hne. simpl. by rewrite Hwalk. }
  repeat split; try reflexivity; try assumption.
  unfold isValidAnchorElement, sameCBAndAbsolute.
  by rewrite Hne, andb_false_r, Hrule2.
Qed.

(** ** The positioning probe and the initial containing block *)

Lemma hasDisplayNone_true (d : Document) (el : Element) :
  hasDisplayNone d (Some el) = true <-> displayNone d el.
Proof.
  unfold hasDisplayNone, displayNone.
  rewrite orb_true_iff, !string_eqb_true. reflexivity.
Qed.

Lemma hasDisplayNone_false (d : Document) (el : Element) :
  hasDisplayNone d (Some el) = false <-> ~ displayNone d el.
Proof.
  rewrite <- hasDisplayNone_true. destruct (hasDisplayNone d (Some el)); split;
    congruence.
Qed.

Lemma isDisplayNone_false (d : Document) (el : Element) :
  isDisplayNone d el = false <->
  ~ displayNone d el /\
  (forall p, parentElement d el = Some p -> ~ displayNone d p).
Proof.
  unfold isDisplayNone. rewrite orb_false_iff, hasDisplayNone_false.
  destruct (parentElement d el) as [p|].
  - rewrite hasDisplayNone_false. split.
    + intros [Hel Hp]. split; [exact Hel|]. by intros p' [= <-].
    + intros [Hel Hp]. split; [exact Hel | by apply Hp].
  - simpl. split; [|tauto]. intros [Hel _]. split; [exact Hel | discriminate].
Qed.

(** C9.  [isAbsolutelyPositioned] is [true] exactly for a present element
    whose inline position or computed position is "absolute"; for an absent
    element it is [false]. *)
Theorem isAbsolutelyPositioned_iff (d : Document) (el : option Element) :
  (isAbsolutelyPositioned d el = true <->
     exists e, el = Some e /\
       (stylePosition d e = "absolute" \/ computedPosition d e = "absolute")) /\
  isAbsolutelyPositioned d None = false.
Proof.
  split; [|reflexivity]. destruct el as [e|]; simpl.
  - rewrite orb_true_iff, !string_eqb_true. split.
    + intros H. by exists e.
    + by intros (e' & [= <-] & H).
  - split; [discriminate|]. by intros (e & ? & _).
Qed.

(** C4.  [isContainingBlockICB] is [true] exactly when the containing-block
    parent is absent or is the body element under a Firefox user agent, and
    neither the element nor its parent element has display none; so it is
    [false] whenever one of the two has display none, whatever the
    containing-block parent. *)
Theorem isContainingBlockICB_iff (d : Document) (floatingElement : Element) :
  (isContainingBlockICB d floatingElement = true <->
     (offsetParent d floatingElement = None \/
      (offsetParent d floatingElement = body d /\
       JS.includes "Firefox" (userAgent d) = true)) /\
     ~ displayNone d floatingElement /\
     (forall p, parentElement d floatingElement = Some p -> ~ displayNone d p)) /\
  (displayNone d floatingElement \/
   (exists p, parentElement d floatingElement = Some p /\ displayNone d p) ->
   isContainingBlockICB d floatingElement = false).
Proof.
  assert (Hiff : isContainingBlockICB d floatingElement = true <->
     (offsetParent d floatingElement = None \/
      (offsetParent d floatingElement = body d /\
       JS.includes "Firefox" (userAgent d) = true)) /\
     ~ displayNone d floatingElement /\
     (forall p, parentElement d floatingElement = Some p -> ~ displayNone d p)).
  { rewrite <- isDisplayNone_false.
    unfold isContainingBlockICB, cbIsBodyElementFromFF.
    rewrite <- (strictEq_true (offsetParent d floatingElement) None),
      <- (strictEq_true (offsetParent d floatingElement) (body d)).
    destruct (JS.strictEq (offsetParent d floatingElement) None),
      (JS.strictEq (offsetParent d floatingElement) (body d)),
      (JS.includes "Firefox" (userAgent d)),
      (isDisplayNone d floatingElement); simpl; intuition congruence. }
  split; [exact Hiff|].
  intros Hnone. apply not_true_is_false. intros Hicb.
  apply Hiff in Hicb as (_ & Hel & Hparent).
  destruct Hnone as [Hnone|(p & Hp & Hnone)]; [contradiction|].
  exact (Hparent p Hp Hnone).
Qed.

(** C5.  Under a Firefox user agent, an element whose containing-block parent
    is the body element gets the same answer as in the document that differs
    only in reporting no containing-block parent for it. *)
Theorem firefox_body_as_absent (d : Document) (floatingElement : Element) :
  offsetParent d floatingElement = body d ->
  JS.includes "Firefox" (userAgent d) = true ->
  isContainingBlockICB d floatingElement
  = isContainingBlockICB (withOffsetParent d floatingElement None) floatingElement.
Proof.
  intros Hbody Hff. unfold isContainingBlockICB, cbIsBodyElementFromFF, isDisplayNone.
  simpl. rewrite bool_decide_eq_true_2 by reflexivity.
  apply strictEq_true in Hbody. rewrite Hbody, Hff.
  replace (JS.strictEq None None) with true by reflexivity.
  by rewrite orb_true_r.
Qed.

(** ** Candidate lookup *)

(** The loop returns the first candidate that validates, when every
    validation finishes. *)
Lemma firstValidAnchor_first (fuel : nat) (d : Document) (floatingEl : Element)
    (anchorElements : list Element) :
  (forall a, a ∈ anchorElements ->
     exists valid, isValidAnchorElement fuel d a floatingEl = Some valid) ->
  (exists before anchor after,
      anchorElements = before ++ anchor :: after /\
      Forall (fun e => isValidAnchorElement fuel d e floatingEl = Some false) before /\
      isValidAnchorElement fuel d anchor floatingEl = Some true /\
      firstValidAnchor fuel d floatingEl anchorElements = Return (Some anchor)) \/
  (Forall (fun e => isValidAnchorElement fuel d e floatingEl = Some false)
     anchorElements /\
   firstValidAnchor fuel d floatingEl anchorElements = Return None).
Proof.
  induction anchorElements as [|a rest IH]; intros Hfinish.
  - right. split; [constructor | reflexivity].
  - destruct (Hfinish a) as [valid Hvalid]; [by left|].
    simpl. rewrite Hvalid. destruct valid.
    + left. exists [], a, rest. by repeat split.
    + destruct IH as [(before & anchor & after & -> & Hbefore & Hanchor & Hrun)
                     |[Hall Hrun]].
      * intros x Hx. apply Hfinish. by right.
      * left. exists (a :: before), anchor, after. by repeat split; [constructor|..].
      * right. split; [by constructor | exact Hrun].
Qed.

(** C7.  For a present floating element the selectors are joined with ", "
    into the one selector passed to [querySelectorAll]; the result is the
    first match, in document order, that [isValidAnchorElement] accepts for the
    floating element, and [null] when it accepts none.  With matches
    [E1; E2], [E1] rejected and [E2] accepted, the result is [E2]. *)
Theorem first_valid_in_document_order (d : Document) (depth : Element -> nat)
    (depth_decreases :
       forall el cb, offsetParent d el = Some cb -> depth cb < depth el)
    (fuel : nat) (floatingEl : Element) (anchorSelectors : list string)
    (anchorElements : list Element) :
  querySelectorAll d (JS.join ", " anchorSelectors) = inr anchorElements ->
  (forall a, a ∈ anchorElements -> depth a <= fuel) ->
  queries (validatedForPositioning fuel d (Some floatingEl) anchorSelectors)
  = [JS.join ", " anchorSelectors] /\
  ((exists before anchor after,
       anchorElements = before ++ anchor :: after /\
       Forall (fun e => isValidAnchorElement fuel d e floatingEl = Some false) before /\
       isValidAnchorElement fuel d anchor floatingEl = Some true /\
       completion (validatedForPositioning fuel d (Some floatingEl) anchorSelectors)
       = Return (Some anchor)) \/
   (Forall (fun e => isValidAnchorElement fuel d e floatingEl = Some false)
      anchorElements /\
    completion (validatedForPositioning fuel d (Some floatingEl) anchorSelectors)
    = Return None)) /\
  (forall E1 E2,
      anchorElements = [E1; E2] ->
      isValidAnchorElement fuel d E1 floatingEl = Some false ->
      isValidAnchorElement fuel d E2 floatingEl = Some true ->
      completion (validatedForPositioning fuel d (Some floatingEl) anchorSelectors)
      = Return (Some E2)).
Proof.
  intros Hquery Hfuel. unfold validatedForPositioning. rewrite Hquery. simpl.
  split; [reflexivity|]. split.
  - apply firstValidAnchor_first. intros a Ha.
    apply (isValidAnchorElement_terminates d depth depth_decreases). by apply Hfuel.
  - intros E1 E2 -> H1 H2. simpl. by rewrite H1, H2.
Qed.

(** C8.  With an absent floating element the lookup returns [null] at once:
    no selector is passed to [querySelectorAll], whatever the selectors, and
    the run does not depend on the document at all. *)
Theorem absent_floating_no_query (fuel : nat) (d : Document)
    (anchorSelectors : list string) :
  queries (validatedForPositioning fuel d None anchorSelectors) = [] /\
  completion (validatedForPositioning fuel d None anchorSelectors) = Return None /\
  (forall fuel' d',
      validatedForPositioning fuel' d' None anchorSelectors
      = validatedForPositioning fuel d None anchorSelectors).
Proof. repeat split. Qed.

(** C10.  With a present floating element and no selectors, the joined
    selector is the empty string and it is still passed to
    [querySelectorAll]; an exception thrown by that call is the outcome of the
    lookup, unchanged, and a list of matches is searched as for any other
    selector. *)
Theorem empty_selector_list_error_propagates (fuel : nat) (d : Document)
    (floatingEl : Element) :
  JS.join ", " [] = "" /\
  queries (validatedForPositioning fuel d (Some floatingEl) []) = [""] /\
  (forall e,
      querySelectorAll d "" = inl e ->
      completion (validatedForPositioning fuel d (Some floatingEl) []) = Throw e) /\
  (forall anchorElements,
      querySelectorAll d "" = inr anchorElements ->
      completion (validatedForPositioning fuel d (Some floatingEl) [])
      = firstValidAnchor fuel d floatingEl anchorElements).
Proof.
  split; [reflexivity|]. unfold validatedForPositioning. simpl.
  split; [by destruct (querySelectorAll d "")|].
  split; intros x Hx; by rewrite Hx.
Qed.

(** ** The theorems at the concrete page *)

(** The anchor 5 sits below the blocks 4 and 3 inside the floating element's
    containing block 2; the chain is [4; 3] and its tail 3 is absolute. *)
Lemma chain_tail_rule_witness :
  (forall el cb,
      offsetParent (Fixture.page Fixture.chrome) el = Some cb -> cb < el) /\
  offsetParent (Fixture.page Fixture.chrome) 5
  <> offsetParent (Fixture.page Fixture.chrome) 6 /\
  5 <= 5 /\
  exists chain,
    anchorCBchain 5 (Fixture.page Fixture.chrome) 5 6 = Some chain /\
    CBChain (Fixture.page Fixture.chrome)
      (offsetParent (Fixture.page Fixture.chrome) 6)
      (offsetParent (Fixture.page Fixture.chrome) 5) chain /\
    isValidAnchorElement 5 (Fixture.page Fixture.chrome) 5 6
      = Some (if isAbsolutelyPositioned (Fixture.page Fixture.chrome) (last chain)
              then false
              else descendantOrICB (Fixture.page Fixture.chrome) 5 6) /\
    (forall tail,
        last chain = Some tail ->
        isAbsolutelyPositioned (Fixture.page Fixture.chrome) (Some tail) = true ->
        isValidAnchorElement 5 (Fixture.page Fixture.chrome) 5 6 = Some false) /\
    (forall d',
        samePositionsOutside (intermediate chain) (Fixture.page Fixture.chrome) d' ->
        isValidAnchorElement 5 d' 5 6
        = isValidAnchorElement 5 (Fixture.page Fixture.chrome) 5 6).
Proof.
  split; [exact (Fixture.page_depth Fixture.chrome)|].
  split; [simpl; discriminate|]. split; [lia|].
  apply (chain_tail_rule (Fixture.page Fixture.chrome) (fun el => el)
           (Fixture.page_depth Fixture.chrome) 5 5 6); [simpl; discriminate | lia].
Defined.

(** The absolutely positioned element 7 shares the containing block 2 with
    the floating element 6. *)
Lemma same_cb_absolute_invalid_witness :
  offsetParent (Fixture.page Fixture.chrome) 7
  = offsetParent (Fixture.page Fixture.chrome) 6 /\
  isAbsolutelyPositioned (Fixture.page Fixture.chrome) (Some 7) = true /\
  isValidAnchorElement 0 (Fixture.page Fixture.chrome) 7 6 = Some false.
Proof.
  split; [reflexivity|]. split; [reflexivity|].
  apply (same_cb_absolute_invalid 0 (Fixture.page Fixture.chrome) 7 6); reflexivity.
Defined.

(** The static element 8 shares the containing block 2 with the floating
    element 6 and is contained in it. *)
Lemma descendant_or_icb_fallback_witness :
  sameCBAndAbsolute (Fixture.page Fixture.chrome) 8 6 = false /\
  chainTailAbsolute 0 (Fixture.page Fixture.chrome) 8 6 = Some false /\
  exists valid,
    isValidAnchorElement 0 (Fixture.page Fixture.chrome) 8 6 = Some valid /\
    (valid = true <->
       (exists cb, offsetParent (Fixture.page Fixture.chrome) 6 = Some cb /\
                   contains (Fixture.page Fixture.chrome) cb 8 = true) \/
       isContainingBlockICB (Fixture.page Fixture.chrome) 6 = true) /\
    (offsetParent (Fixture.page Fixture.chrome) 6 = None ->
       isDescendant (Fixture.page Fixture.chrome) 8 6 = false /\
       valid = isContainingBlockICB (Fixture.page Fixture.chrome) 6).
Proof.
  split; [reflexivity|]. split; [reflexivity|].
  apply (descendant_or_icb_fallback 0 (Fixture.page Fixture.chrome) 8 6); reflexivity.
Defined.

(** The detached element 9 has display none and no containing-block parent. *)
Lemma isContainingBlockICB_iff_witness :
  offsetParent (Fixture.page Fixture.chrome) 9 = None /\
  displayNone (Fixture.page Fixture.chrome) 9 /\
  isContainingBlockICB (Fixture.page Fixture.chrome) 9 = false.
Proof.
  split; [reflexivity|]. split; [right; reflexivity|].
  apply (isContainingBlockICB_iff (Fixture.page Fixture.chrome) 9).
  left. right. reflexivity.
Defined.

(** Under Firefox the block 2 reports the body element 1 as its
    containing-block parent. *)
Lemma firefox_body_as_absent_witness :
  offsetParent (Fixture.page Fixture.firefox) 2 = body (Fixture.page Fixture.firefox) /\
  JS.includes "Firefox" (userAgent (Fixture.page Fixture.firefox)) = true /\
  isContainingBlockICB (Fixture.page Fixture.firefox) 2
  = isContainingBlockICB (withOffsetParent (Fixture.page Fixture.firefox) 2 None) 2.
Proof.
  split; [reflexivity|]. split; [reflexivity|].
  apply (firefox_body_as_absent (Fixture.page Fixture.firefox) 2); reflexivity.
Defined.

(** The body element 1 has no containing-block parent; the floating element 6
    has the block 2. *)
Lemma empty_chain_falls_through_witness :
  offsetParent (Fixture.page Fixture.chrome) 1 = None /\
  offsetParent (Fixture.page Fixture.chrome) 6 <> None /\
  anchorCBchain 0 (Fixture.page Fixture.chrome) 1 6 = Some [] /\
  lastInChain [] = None /\
  isAbsolutelyPositioned (Fixture.page Fixture.chrome) (lastInChain []) = false /\
  chainTailAbsolute 0 (Fixture.page Fixture.chrome) 1 6 = Some false /\
  isValidAnchorElement 0 (Fixture.page Fixture.chrome) 1 6
  = Some (descendantOrICB (Fixture.page Fixture.chrome) 1 6).
Proof.
  split; [reflexivity|]. split; [simpl; discriminate|].
  apply (empty_chain_falls_through 0 (Fixture.page Fixture.chrome) 1 6);
    [reflexivity | simpl; discriminate].
Defined.

(** The selectors ".tip" and ".note" match the elements 7 and 8 in document
    order; 7 is rejected and 8 accepted for the floating element 6. *)
Lemma first_valid_in_document_order_witness :
  (forall el cb,
      offsetParent (Fixture.page Fixture.chrome) el = Some cb -> cb < el) /\
  querySelectorAll (Fixture.page Fixture.chrome) (JS.join ", " [".tip"; ".note"])
  = inr [7; 8] /\
  (forall a, a ∈ [7; 8] -> a <= 8) /\
  queries (validatedForPositioning 8 (Fixture.page Fixture.chrome) (Some 6)
             [".tip"; ".note"]) = [".tip, .note"] /\
  completion (validatedForPositioning 8 (Fixture.page Fixture.chrome) (Some 6)
                [".tip"; ".note"]) = Return (Some 8).
Proof.
  assert (Hfuel : forall a : Element, a ∈ [7; 8] -> a <= 8).
  { intros a Ha. apply elem_of_cons in Ha as [->|Ha]; [lia|].
    apply elem_of_cons in Ha as [->|Ha]; [lia|]. by apply elem_of_nil in Ha. }
  split; [exact (Fixture.page_depth Fixture.chrome)|].
  split; [reflexivity|]. split; [exact Hfuel|].
  destruct (first_valid_in_document_order (Fixture.page Fixture.chrome)
              (fun el => el) (Fixture.page_depth Fixture.chrome) 8 6
              [".tip"; ".note"] [7; 8] eq_refl Hfuel) as (Hqueries & _ & Hsecond).
  split; [exact Hqueries|].
  apply (Hsecond 7 8); reflexivity.
Defined.

(** The page's [querySelectorAll] throws a SyntaxError for the empty
    selector. *)
Lemma empty_selector_list_error_propagates_witness :
  querySelectorAll (Fixture.page Fixture.chrome) "" = inl Fixture.syntaxError /\
  queries (validatedForPositioning 8 (Fixture.page Fixture.chrome) (Some 6) []) = [""] /\
  completion (validatedForPositioning 8 (Fixture.page Fixture.chrome) (Some 6) [])
  = Throw Fixture.syntaxError.
Proof.
  split; [reflexivity|].
  destruct (empty_selector_list_error_propagates 8 (Fixture.page Fixture.chrome) 6)
    as (_ & Hqueries & Hthrow & _).
  split; [exact Hqueries|]. apply Hthrow. reflexivity.
Defined.

(** * Further properties of the validator *)

(** ** Strings *)

Lemma append_cons (a : Ascii.ascii) (s t : string) :
  String a s +:+ t = String a (s +:+ t).
Proof. reflexivity. Qed.

Lemma prefix_iff (needle hay : string) :
  String.prefix needle hay = true <-> exists post, hay = needle +:+ post.
Proof.
  revert hay. induction needle as [|a needle IH]; intros hay.
  - split; [intros _; by exists hay | intros _; by destruct hay].
  - destruct hay as [|b hay]; simpl.
    + split; [discriminate | intros [post Hpost]; discriminate].
    + setoid_rewrite append_cons. destruct (Ascii.ascii_dec a b) as [<-|Hne].
      * rewrite IH. split; intros [post Hpost]; exists post; congruence.
      * split; [discriminate|]. intros [post [= Hab _]]. congruence.
Qed.

Lemma includes_nil (needle : string) :
  JS.includes needle "" = String.prefix needle "" || false.
Proof. reflexivity. Qed.

Lemma includes_cons (needle : string) (b : Ascii.ascii) (hay : string) :
  JS.includes needle (String b hay)
  = String.prefix needle (String b hay) || JS.includes needle hay.
Proof. reflexivity. Qed.

Lemma includes_iff (needle hay : string) :
  JS.includes needle hay = true <->
  exists pre post, hay = pre +:+ needle +:+ post.
Proof.
  induction hay as [|b hay IH].
  - rewrite includes_nil, orb_false_r, prefix_iff. split.
    + intros [post Hpost]. by exists "", post.
    + intros (pre & post & Hhay).
      destruct pre; [by exists post | discriminate].
  - rewrite includes_cons, orb_true_iff, prefix_iff, IH. split.
    + intros [[post Hpost]|(pre & post & ->)]; [by exists "", post|].
      exists (String b pre), post. by rewrite append_cons.
    + intros (pre & post & Hhay). destruct pre as [|c pre].
      * left. by exists post.
      * right. rewrite append_cons in Hhay. injection Hhay as _ ->.
        by exists pre, post.
Qed.

(** ** The probes and the initial containing block, continued *)


(** X2.  The Firefox correction applies exactly when the containing-block parent
    is what [document.querySelector('body')] returns and the user agent
    string has "Firefox" somewhere inside it, at any position and in this
    exact case. *)
Theorem cbIsBodyElementFromFF_iff (d : Document) (floatingElement : Element) :
  cbIsBodyElementFromFF d floatingElement = true <->
  offsetParent d floatingElement = body d /\
  exists pre post, userAgent d = pre +:+ "Firefox" +:+ post.
Proof.
  unfold cbIsBodyElementFromFF.
  by rewrite andb_true_iff, strictEq_true, includes_iff.
Qed.

(** X3.  Without "Firefox" in the user agent only an absent containing-block
    parent makes the containing block the initial one: an element that has a
    containing-block parent, the body element included, is never classified
    so. *)
Theorem icb_without_firefox (d : Document) (floatingElement : Element) :
  JS.includes "Firefox" (userAgent d) = false ->
  (isContainingBlockICB d floatingElement = true <->
     offsetParent d floatingElement = None /\
     ~ displayNone d floatingElement /\
     (forall p, parentElement d floatingElement = Some p -> ~ displayNone d p)) /\
  (forall cb,
      offsetParent d floatingElement = Some cb ->
      isContainingBlockICB d floatingElement = false).
Proof.
  intros Hua.
  assert (Hiff : isContainingBlockICB d floatingElement = true <->
     offsetParent d floatingElement = None /\
     ~ displayNone d floatingElement /\
     (forall p, parentElement d floatingElement = Some p -> ~ displayNone d p)).
  { rewrite <- isDisplayNone_false.
    unfold isContainingBlockICB, cbIsBodyElementFromFF.
    rewrite Hua, andb_false_r, orb_false_r,
      <- (strictEq_true (offsetParent d floatingElement) None).
    destruct (JS.strictEq (offsetParent d floatingElement) None),
      (isDisplayNone d floatingElement); simpl; intuition congruence. }
  split; [exact Hiff|].
  intros cb Hcb. apply not_true_is_false. intros Hicb.
  apply Hiff in Hicb as [Hnone _]. congruence.
Qed.

(** X4.  Under Firefox an element whose containing-block parent is some element
    other than the body is not classified as placed in the initial containing
    block either: the correction is for the body alone. *)
Theorem icb_firefox_only_body (d : Document) (floatingElement cb : Element) :
  offsetParent d floatingElement = Some cb ->
  body d <> Some cb ->
  isContainingBlockICB d floatingElement = false.
Proof.
  intros Hcb Hbody. unfold isContainingBlockICB, cbIsBodyElementFromFF.
  rewrite Hcb.
  assert (H1 : JS.strictEq (Some cb) None = false) by (by apply strictEq_false).
  assert (H2 : JS.strictEq (Some cb) (body d) = false)
    by (apply strictEq_false; congruence).
  by rewrite H1, H2.
Qed.

(** ** The chain walk, continued *)

(** The chain from a node of a chain is the rest of that chain. *)
Lemma CBChain_drop (d : Document) (stop currentCB : option Element)
    (chain : list Element) :
  CBChain d stop currentCB chain ->
  forall i cb, chain !! i = Some cb -> CBChain d stop (Some cb) (drop i chain).
Proof.
  induction 1 as [|cb Heq|cb rest Hne Hrest IH]; intros i x Hi; try discriminate.
  destruct i as [|i]; simpl in *.
  - injection Hi as <-. by apply CBChain_step.
  - by apply IH.
Qed.

(** A finished walk has met no node twice. *)
Lemma CBChain_NoDup (d : Document) (stop currentCB : option Element)
    (chain : list Element) :
  CBChain d stop currentCB chain -> NoDup chain.
Proof.
  induction 1 as [|cb Heq|cb rest Hne Hrest IH]; try constructor; [|exact IH].
  intros Hin. apply list_elem_of_lookup in Hin as [i Hi].
  pose proof (CBChain_drop d stop _ rest Hrest i cb Hi) as Hagain.
  pose proof (CBChain_step d stop cb rest Hne Hrest) as Hfirst.
  pose proof (CBChain_functional d stop _ _ _ Hfirst Hagain) as Heq.
  apply (f_equal length) in Heq. rewrite length_drop in Heq. simpl in Heq. lia.
Qed.

(** Consecutive nodes of a chain are linked by [offsetParent]. *)
Lemma CBChain_links (d : Document) (stop currentCB : option Element)
    (chain : list Element) :
  CBChain d stop currentCB chain ->
  forall i cb next,
    chain !! i = Some cb -> chain !! S i = Some next ->
    offsetParent d cb = Some next.
Proof.
  induction 1 as [|cb Heq|cb rest Hne Hrest IH]; intros i x next Hi Hnext;
    try discriminate.
  destruct i as [|i]; simpl in *.
  - injection Hi as <-. inversion Hrest; subst; simpl in Hnext; try discriminate.
    congruence.
  - by apply (IH i).
Qed.

(** The first node of a chain is the start node; an empty chain means the
    start was absent or was the stop node. *)
Lemma CBChain_head (d : Document) (stop currentCB : option Element)
    (chain : list Element) :
  CBChain d stop currentCB chain ->
  match chain with
  | [] => currentCB = None \/ currentCB = stop
  | cb :: _ => currentCB = Some cb
  end.
Proof. destruct 1; [by left | by right | reflexivity]. Qed.

(** X5.  The array built by the loop of [isValidAnchorElement], whenever the loop
    finishes: it starts at the anchor's containing-block parent, each next
    entry is the containing-block parent of the one before, no entry is the
    floating element's containing-block parent, no entry occurs twice, and
    past the last entry there is no parent or the floating element's
    containing-block parent. *)
Theorem anchorCBchain_shape (fuel : nat) (d : Document)
    (anchor floating : Element) (chain : list Element) :
  anchorCBchain fuel d anchor floating = Some chain ->
  match chain with
  | [] => offsetParent d anchor = None \/
          offsetParent d anchor = offsetParent d floating
  | cb :: _ => offsetParent d anchor = Some cb
  end /\
  (forall i cb next,
      chain !! i = Some cb -> chain !! S i = Some next ->
      offsetParent d cb = Some next) /\
  (forall cb, cb ∈ chain -> Some cb <> offsetParent d floating) /\
  NoDup chain /\
  (forall tail,
      last chain = Some tail ->
      offsetParent d tail = None \/
      offsetParent d tail = offsetParent d floating).
Proof.
  intros Hwalk. unfold anchorCBchain in Hwalk.
  apply walkCBchain_sound in Hwalk as (l & -> & Hchain). simpl.
  split; [exact (CBChain_head _ _ _ _ Hchain)|].
  split; [exact (CBChain_links _ _ _ _ Hchain)|].
  split; [exact (CBChain_not_stop _ _ _ _ Hchain)|].
  split; [exact (CBChain_NoDup _ _ _ _ Hchain)|].
  exact (CBChain_after_tail _ _ _ _ Hchain).
Qed.

(** X6.  What [anchorCBchain[anchorCBchain.length - 1]] reads: [undefined] from
    the empty array (index -1) and from no other, and the entry pushed last
    otherwise. *)
Theorem lastInChain_edge (chain : list Element) :
  (lastInChain chain = None <-> chain = []) /\
  (forall cb, lastInChain (chain ++ [cb]) = Some cb).
Proof.
  split.
  - rewrite lastInChain_last. apply last_None.
  - intros cb. rewrite lastInChain_last. apply last_snoc.
Qed.

(** The walk has no guard against a cycle: started inside a set of nodes that
    [offsetParent] never leaves and that does not hold the stop node, it
    does not finish on any fuel. *)
Lemma walkCBchain_cycle (d : Document) (stop : option Element)
    (inCycle : Element -> Prop) :
  (forall cb, inCycle cb ->
     Some cb <> stop /\ exists next, offsetParent d cb = Some next /\ inCycle next) ->
  forall fuel cb acc, inCycle cb -> walkCBchain fuel d stop (Some cb) acc = None.
Proof.
  intros Hclosed. induction fuel as [|fuel IH]; intros cb acc Hcb; simpl;
    destruct (Hclosed cb Hcb) as (Hne & next & Hnext & Hin);
    apply strictEq_false in Hne; rewrite Hne; [reflexivity|].
  rewrite Hnext. by apply IH.
Qed.

(** X7.  When the containing-block chain of the anchor runs into a cycle that
    does not hold the floating element's containing-block parent,
    [isValidAnchorElement] does not return: the loop of source lines 86-89
    runs forever. *)
Theorem no_cycle_guard (d : Document) (inCycle : Element -> Prop)
    (anchor floating cb : Element) :
  (forall c, inCycle c ->
     Some c <> offsetParent d floating /\
     exists next, offsetParent d c = Some next /\ inCycle next) ->
  offsetParent d anchor = Some cb ->
  inCycle cb ->
  forall fuel, isValidAnchorElement fuel d anchor floating = None.
Proof.
  intros Hclosed Hanchor Hcb fuel.
  assert (Hne : JS.strictEq (offsetParent d anchor) (offsetParent d floating) = false).
  { apply strictEq_false. rewrite Hanchor. by apply Hclosed. }
  unfold isValidAnchorElement, sameCBAndAbsolute, chainTailAbsolute, anchorCBchain.
  rewrite Hne, andb_false_r. simpl. rewrite Hanchor.
  by rewrite (walkCBchain_cycle d _ inCycle Hclosed fuel cb []).
Qed.

(** ** Fuel *)




(** ** The lookup on any document *)

(** A finished loop has returned the first candidate that validates. *)
Lemma firstValidAnchor_sound (fuel : nat) (d : Document) (floatingEl : Element)
    (anchorElements : list Element) (result : option Element) :
  firstValidAnchor fuel d floatingEl anchorElements = Return result ->
  match result with
  | Some anchor =>
      exists before after,
        anchorElements = before ++ anchor :: after /\
        Forall (fun e => isValidAnchorElement fuel d e floatingEl = Some false) before /\
        isValidAnchorElement fuel d anchor floatingEl = Some true
  | None =>
      Forall (fun e => isValidAnchorElement fuel d e floatingEl = Some false)
        anchorElements
  end.
Proof.
  induction anchorElements as [|a rest IH]; simpl.
  - intros [= <-]. constructor.
  - destruct (isValidAnchorElement fuel d a floatingEl) as [[|]|] eqn:Hvalid;
      try discriminate.
    + intros [= <-]. by exists [], rest.
    + intros Hrest. specialize (IH Hrest). destruct result as [anchor|].
      * destruct IH as (before & after & -> & Hbefore & Hanchor).
        exists (a :: before), after. by repeat split; [constructor|..].
      * by constructor.
Qed.


(** An element the lookup returns has passed validation. *)
Lemma returned_anchor_validates (fuel : nat) (d : Document) (floatingEl : Element)
    (anchorSelectors : list string) (anchor : Element) :
  completion (validatedForPositioning fuel d (Some floatingEl) anchorSelectors)
  = Return (Some anchor) ->
  isValidAnchorElement fuel d anchor floatingEl = Some true.
Proof.
  unfold validatedForPositioning.
  destruct (querySelectorAll d (JS.join ", " anchorSelectors))
    as [e|anchorElements]; simpl; [discriminate|].
  intros Hrun. apply firstValidAnchor_sound in Hrun.
  by destruct Hrun as (before & after & _ & _ & Hanchor).
Qed.


(** X10.  On any document, acyclic or not, an element returned by the lookup is one
    of the matches of the joined selector, it passes [isValidAnchorElement]
    for the floating element, and every match before it in document order was
    rejected; and [null] is returned to a present floating element only when
    every match was rejected. *)
Theorem lookup_result_sound (fuel : nat) (d : Document) (floatingEl : Element)
    (anchorSelectors : list string) (result : option Element) :
  completion (validatedForPositioning fuel d (Some floatingEl) anchorSelectors)
  = Return result ->
  exists anchorElements,
    querySelectorAll d (JS.join ", " anchorSelectors) = inr anchorElements /\
    match result with
    | Some anchor =>
        anchor ∈ anchorElements /\
        isValidAnchorElement fuel d anchor floatingEl = Some true /\
        exists before after,
          anchorElements = before ++ anchor :: after /\
          Forall (fun e => isValidAnchorElement fuel d e floatingEl = Some false)
            before
    | None =>
        Forall (fun e => isValidAnchorElement fuel d e floatingEl = Some false)
          anchorElements
    end.
Proof.
  unfold validatedForPositioning.
  destruct (querySelectorAll d (JS.join ", " anchorSelectors))
    as [e|anchorElements]; simpl; [discriminate|].
  intros Hrun. exists anchorElements. split; [reflexivity|].
  apply firstValidAnchor_sound in Hrun. destruct result as [anchor|]; [|exact Hrun].
  destruct Hrun as (before & after & -> & Hbefore & Hanchor).
  split; [|split; [exact Hanchor | by exists before, after]].
  apply elem_of_app. right. by left.
Qed.

(** ** Validity and the floating element's own state *)

(** Whatever passes validation passes its third check. *)
Lemma valid_passes_descendantOrICB (fuel : nat) (d : Document)
    (anchor floating : Element) :
  isValidAnchorElement fuel d anchor floating = Some true ->
  descendantOrICB d anchor floating = true.
Proof.
  unfold isValidAnchorElement.
  destruct (sameCBAndAbsolute d anchor floating); [discriminate|].
  destruct (chainTailAbsolute fuel d anchor floating) as [[|]|];
    try discriminate.
  by intros [= ->].
Qed.

(** X11.  A floating element that has no containing-block parent and is not
    rendered (it or its parent element has display none) has no valid anchor:
    no element passes [isValidAnchorElement] for it and the lookup returns no
    element. *)
Theorem hidden_floating_no_anchor (d : Document) (floating : Element) :
  offsetParent d floating = None ->
  (displayNone d floating \/
   exists p, parentElement d floating = Some p /\ displayNone d p) ->
  (forall fuel anchor,
      isValidAnchorElement fuel d anchor floating <> Some true) /\
  (forall fuel anchorSelectors anchor,
      completion (validatedForPositioning fuel d (Some floating) anchorSelectors)
      <> Return (Some anchor)).
Proof.
  intros Hnone Hhidden.
  assert (Hicb : isContainingBlockICB d floating = false).
  { apply not_true_is_false. intros Hicb.
    unfold isContainingBlockICB in Hicb.
    destruct (isDisplayNone d floating) eqn:Hdisplay.
    - by rewrite andb_false_r in Hicb.
    - apply isDisplayNone_false in Hdisplay as [Hel Hparent].
      destruct Hhidden as [?|(p & Hp & Hdn)]; [contradiction|].
      exact (Hparent p Hp Hdn). }
  assert (Hnever : forall fuel anchor,
             isValidAnchorElement fuel d anchor floating <> Some true).
  { intros fuel anchor Hvalid. apply valid_passes_descendantOrICB in Hvalid.
    unfold descendantOrICB, isDescendant in Hvalid.
    by rewrite Hnone, Hicb in Hvalid. }
  split; [exact Hnever|].
  intros fuel anchorSelectors anchor Hrun.
  apply returned_anchor_validates in Hrun.
  exact (Hnever fuel anchor Hrun).
Qed.

(** The result when the containing-block parents differ and the walk has
    finished. *)
Lemma isValidAnchorElement_differ (fuel : nat) (d : Document)
    (anchor floating : Element) (chain : list Element) :
  offsetParent d anchor <> offsetParent d floating ->
  anchorCBchain fuel d anchor floating = Some chain ->
  isValidAnchorElement fuel d anchor floating
  = Some (if isAbsolutelyPositioned d (last chain) then false
          else descendantOrICB d anchor floating).
Proof.
  intros Hdiff Hwalk. apply strictEq_false in Hdiff.
  unfold isValidAnchorElement, sameCBAndAbsolute, chainTailAbsolute.
  rewrite Hdiff, andb_false_r. simpl. rewrite Hwalk, lastInChain_last.
  by destruct (isAbsolutelyPositioned d (last chain)).
Qed.

(** Reporting no containing-block parent for one element keeps the
    containing-block chains finite. *)
Lemma withOffsetParent_None_depth (d : Document) (el : Element)
    (depth : Element -> nat) :
  (forall e cb, offsetParent d e = Some cb -> depth cb < depth e) ->
  forall e cb,
    offsetParent (withOffsetParent d el None) e = Some cb -> depth cb < depth e.
Proof.
  intros Hdepth e cb. simpl. case_bool_decide; [discriminate | apply Hdepth].
Defined.

(** X12.  For a rendered floating element placed in the initial containing block
    (no containing-block parent), an anchor without a containing-block
    parent is valid exactly when it is not absolutely positioned, and an
    anchor with one is valid exactly when the outermost block of its
    containing-block chain is not absolutely positioned; whether the anchor
    itself is absolutely positioned then plays no part. *)
Theorem icb_floating_validity (d : Document) (depth : Element -> nat)
    (depth_decreases :
       forall el cb, offsetParent d el = Some cb -> depth cb < depth el)
    (fuel : nat) (anchor floating : Element) :
  offsetParent d floating = None ->
  isContainingBlockICB d floating = true ->
  depth anchor <= fuel ->
  match offsetParent d anchor with
  | None =>
      isValidAnchorElement fuel d anchor floating
      = Some (negb (isAbsolutelyPositioned d (Some anchor)))
  | Some cb =>
      exists chain top,
        CBChain d None (Some cb) chain /\
        last chain = Some top /\
        offsetParent d top = None /\
        isValidAnchorElement fuel d anchor floating
        = Some (negb (isAbsolutelyPositioned d (Some top)))
  end.
Proof.
  intros Hnone Hicb Hfuel.
  assert (Hthird : descendantOrICB d anchor floating = true).
  { unfold descendantOrICB. rewrite Hicb, orb_true_r. reflexivity. }
  destruct (offsetParent d anchor) as [cb|] eqn:Hanchor.
  - destruct (anchorCBchain_computed d depth depth_decreases fuel anchor floating
                Hfuel) as (chain & Hwalk & Hchain).
    rewrite Hnone, Hanchor in Hchain.
    assert (Hlast : exists top, last chain = Some top).
    { inversion Hchain as [|? Heq|? rest Hne Hrest]; subst; [discriminate|].
      destruct (last (cb :: rest)) as [top|] eqn:Hlast; [by exists top|].
      by apply last_None in Hlast. }
    destruct Hlast as [top Htop]. exists chain, top.
    split; [exact Hchain|]. split; [exact Htop|]. split.
    + by destruct (CBChain_after_tail d None _ chain Hchain top Htop).
    + rewrite (isValidAnchorElement_differ fuel d anchor floating chain);
        [|congruence | exact Hwalk].
      rewrite Htop, Hthird. by destruct (isAbsolutelyPositioned d (Some top)).
  - unfold isValidAnchorElement, sameCBAndAbsolute, chainTailAbsolute.
    rewrite Hanchor, Hnone, Hthird.
    replace (JS.strictEq None None) with true by reflexivity.
    rewrite andb_true_r. simpl.
    by destruct (String.eqb _ _ || String.eqb _ _).
Qed.

(** X13.  An absolutely positioned floating element is never returned as its own
    anchor, even when a selector matches it. *)
Theorem absolute_floating_not_own_anchor (fuel : nat) (d : Document)
    (floating : Element) (anchorSelectors : list string) :
  isAbsolutelyPositioned d (Some floating) = true ->
  completion (validatedForPositioning fuel d (Some floating) anchorSelectors)
  <> Return (Some floating).
Proof.
  intros Habs Hrun. apply returned_anchor_validates in Hrun.
  unfold isValidAnchorElement, sameCBAndAbsolute in Hrun.
  rewrite Habs in Hrun.
  replace (JS.strictEq (offsetParent d floating) (offsetParent d floating))
    with true in Hrun by (symmetry; by apply strictEq_true).
  discriminate.
Qed.

(** X14.  When the anchor and the floating element have the same containing-block
    parent (both absent included) the chain is not walked: on any fuel the
    anchor is valid exactly when it is not absolutely positioned and the
    containing-block parent contains it or the floating element is in the
    initial containing block. *)
Theorem same_cb_validity (fuel : nat) (d : Document) (anchor floating : Element) :
  offsetParent d anchor = offsetParent d floating ->
  exists valid,
    isValidAnchorElement fuel d anchor floating = Some valid /\
    (valid = true <->
       isAbsolutelyPositioned d (Some anchor) = false /\
       ((exists cb, offsetParent d anchor = Some cb /\ contains d cb anchor = true) \/
        isContainingBlockICB d floating = true)).
Proof.
  intros Hsame. pose proof Hsame as Heq. apply strictEq_true in Heq.
  unfold isValidAnchorElement, sameCBAndAbsolute, chainTailAbsolute.
  rewrite Heq, andb_true_r. simpl negb. cbv iota.
  unfold descendantOrICB, isDescendant. rewrite <- Hsame.
  destruct (isAbsolutelyPositioned d (Some anchor)).
  - exists false. split; [reflexivity|]. split; [discriminate | by intros [? _]].
  - eexists. split; [reflexivity|].
    destruct (offsetParent d anchor) as [cb|].
    + destruct (contains d cb anchor) eqn:Hcontains; simpl.
      * split; [|reflexivity]. intros _. split; [reflexivity|]. left. by exists cb.
      * destruct (isContainingBlockICB d floating); split; try tauto.
        -- intros [_ [(cb' & [= <-] & ?)|?]]; congruence.
    + simpl. destruct (isContainingBlockICB d floating); split; try tauto.
      intros [_ [(cb' & ? & _)|?]]; congruence.
Qed.

(** ** The joined selector *)

Lemma append_assoc (s t u : string) : (s +:+ t) +:+ u = s +:+ t +:+ u.
Proof.
  induction s as [|a s IH]; [reflexivity|]. by rewrite !append_cons, IH.
Qed.

Lemma join_cons_cons (sep x y : string) (l : list string) :
  JS.join sep (x :: y :: l) = x +:+ sep +:+ JS.join sep (y :: l).
Proof. reflexivity. Qed.

Lemma join_app (sep : string) (l1 l2 : list string) :
  l1 <> [] -> l2 <> [] ->
  JS.join sep (l1 ++ l2) = JS.join sep l1 +:+ sep +:+ JS.join sep l2.
Proof.
  intros H1 H2. induction l1 as [|x l1 IH]; [contradiction|].
  destruct l1 as [|y l1].
  - destruct l2 as [|z l2]; [contradiction | reflexivity].
  - change ((x :: y :: l1) ++ l2) with (x :: y :: (l1 ++ l2)).
    rewrite !join_cons_cons.
    change (y :: l1 ++ l2) with ((y :: l1) ++ l2).
    rewrite IH by discriminate. by rewrite !append_assoc.
Qed.

Lemma lookup_query_shape (fuel : nat) (d : Document) (floatingEl : Element)
    (anchorSelectors : list string) :
  queries (validatedForPositioning fuel d (Some floatingEl) anchorSelectors)
  = [JS.join ", " anchorSelectors].
Proof.
  unfold validatedForPositioning.
  by destruct (querySelectorAll d (JS.join ", " anchorSelectors)).
Qed.

(** X15.  The selector queried for two non-empty selector lists put one after the
    other is the selector of the first, ", ", and the selector of the second:
    the lookup over both lists is one query for the union of the two
    selector lists. *)
Theorem lookup_query_of_app (fuel : nat) (d : Document) (floatingEl : Element)
    (selectors1 selectors2 : list string) :
  selectors1 <> [] ->
  selectors2 <> [] ->
  queries (validatedForPositioning fuel d (Some floatingEl)
             (selectors1 ++ selectors2))
  = [JS.join ", " selectors1 +:+ ", " +:+ JS.join ", " selectors2].
Proof.
  intros H1 H2.
  by rewrite lookup_query_shape, join_app.
Qed.

(** ** The further properties at the concrete pages *)

(** Under the Chrome user agent the block 2, whose containing-block parent is
    the body element, is not in the initial containing block. *)
Lemma icb_without_firefox_witness :
  JS.includes "Firefox" (userAgent (Fixture.page Fixture.chrome)) = false /\
  offsetParent (Fixture.page Fixture.chrome) 2 = Some 1 /\
  isContainingBlockICB (Fixture.page Fixture.chrome) 2 = false.
Proof.
  split; [reflexivity|]. split; [reflexivity|].
  destruct (icb_without_firefox (Fixture.page Fixture.chrome) 2 eq_refl)
    as [_ Hpresent].
  apply (Hpresent 1). reflexivity.
Defined.

(** Under Firefox the floating element 6 has the block 2, not the body, as
    containing-block parent. *)
Lemma icb_firefox_only_body_witness :
  offsetParent (Fixture.page Fixture.firefox) 6 = Some 2 /\
  body (Fixture.page Fixture.firefox) <> Some 2 /\
  isContainingBlockICB (Fixture.page Fixture.firefox) 6 = false.
Proof.
  split; [reflexivity|]. split; [simpl; discriminate|].
  apply (icb_firefox_only_body (Fixture.page Fixture.firefox) 6 2);
    [reflexivity | simpl; discriminate].
Defined.

(** The chain of the anchor 5 towards the floating element 6 is [4; 3]. *)
Lemma anchorCBchain_shape_witness :
  anchorCBchain 5 (Fixture.page Fixture.chrome) 5 6 = Some [4; 3] /\
  offsetParent (Fixture.page Fixture.chrome) 5 = Some 4 /\
  (forall i cb next,
      [4; 3] !! i = Some cb -> [4; 3] !! S i = Some next ->
      offsetParent (Fixture.page Fixture.chrome) cb = Some next) /\
  (forall cb, cb ∈ [4; 3] ->
     Some cb <> offsetParent (Fixture.page Fixture.chrome) 6) /\
  NoDup [4; 3] /\
  (forall tail,
      last [4; 3] = Some tail ->
      offsetParent (Fixture.page Fixture.chrome) tail = None \/
      offsetParent (Fixture.page Fixture.chrome) tail
      = offsetParent (Fixture.page Fixture.chrome) 6).
Proof.
  split; [reflexivity|].
  apply (anchorCBchain_shape 5 (Fixture.page Fixture.chrome) 5 6 [4; 3]).
  reflexivity.
Defined.

(** In the cyclic page the anchor 5 has the block 4 as containing-block
    parent, and 4 and 3 are each other's. *)
Lemma no_cycle_guard_witness :
  (forall c, c = 3 \/ c = 4 ->
     Some c <> offsetParent Fixture.cyclicPage 6 /\
     exists next,
       offsetParent Fixture.cyclicPage c = Some next /\ (next = 3 \/ next = 4)) /\
  offsetParent Fixture.cyclicPage 5 = Some 4 /\
  forall fuel, isValidAnchorElement fuel Fixture.cyclicPage 5 6 = None.
Proof.
  assert (Hclosed : forall c, c = 3 \/ c = 4 ->
     Some c <> offsetParent Fixture.cyclicPage 6 /\
     exists next,
       offsetParent Fixture.cyclicPage c = Some next /\ (next = 3 \/ next = 4)).
  { intros c [-> | ->]; (split; [simpl; discriminate|]).
    - exists 4. split; [reflexivity | by right].
    - exists 3. split; [reflexivity | by left]. }
  split; [exact Hclosed|]. split; [reflexivity|].
  apply (no_cycle_guard Fixture.cyclicPage (fun c => c = 3 \/ c = 4) 5 6 4);
    [exact Hclosed | reflexivity | by right].
Defined.



(** The lookup of the page returns the element 8, the second match. *)
Lemma lookup_result_sound_witness :
  completion (validatedForPositioning 8 (Fixture.page Fixture.chrome) (Some 6)
                [".tip"; ".note"]) = Return (Some 8) /\
  exists anchorElements,
    querySelectorAll (Fixture.page Fixture.chrome) (JS.join ", " [".tip"; ".note"])
    = inr anchorElements /\
    8 ∈ anchorElements /\
    isValidAnchorElement 8 (Fixture.page Fixture.chrome) 8 6 = Some true /\
    exists before after,
      anchorElements = before ++ 8 :: after /\
      Forall (fun e => isValidAnchorElement 8 (Fixture.page Fixture.chrome) e 6
                       = Some false) before.
Proof.
  split; [reflexivity|].
  apply (lookup_result_sound 8 (Fixture.page Fixture.chrome) 6 [".tip"; ".note"]
           (Some 8)).
  reflexivity.
Defined.

(** The hidden floating element 6 has no containing-block parent; the
    element 8 does not validate for it. *)
Lemma hidden_floating_no_anchor_witness :
  offsetParent Fixture.hiddenFloatingPage 6 = None /\
  displayNone Fixture.hiddenFloatingPage 6 /\
  isValidAnchorElement 8 Fixture.hiddenFloatingPage 8 6 <> Some true.
Proof.
  assert (Hhidden : displayNone Fixture.hiddenFloatingPage 6)
    by (left; reflexivity).
  split; [reflexivity|]. split; [exact Hhidden|].
  destruct (hidden_floating_no_anchor Fixture.hiddenFloatingPage 6 eq_refl
              (or_introl Hhidden)) as [Hnever _].
  exact (Hnever 8 8).
Defined.

(** With the floating element 6 in the initial containing block, the chain
    of the absolutely positioned element 7 ends at the body element. *)
Lemma icb_floating_validity_witness :
  (forall el cb,
      offsetParent Fixture.fixedFloatingPage el = Some cb -> cb < el) /\
  offsetParent Fixture.fixedFloatingPage 6 = None /\
  isContainingBlockICB Fixture.fixedFloatingPage 6 = true /\
  7 <= 7 /\
  match offsetParent Fixture.fixedFloatingPage 7 with
  | None =>
      isValidAnchorElement 7 Fixture.fixedFloatingPage 7 6
      = Some (negb (isAbsolutelyPositioned Fixture.fixedFloatingPage (Some 7)))
  | Some cb =>
      exists chain top,
        CBChain Fixture.fixedFloatingPage None (Some cb) chain /\
        last chain = Some top /\
        offsetParent Fixture.fixedFloatingPage top = None /\
        isValidAnchorElement 7 Fixture.fixedFloatingPage 7 6
        = Some (negb (isAbsolutelyPositioned Fixture.fixedFloatingPage (Some top)))
  end.
Proof.
  assert (Hdepth : forall el cb,
             offsetParent Fixture.fixedFloatingPage el = Some cb -> cb < el).
  { exact (withOffsetParent_None_depth (Fixture.page Fixture.chrome) 6
             (fun el => el) (Fixture.page_depth Fixture.chrome)). }
  split; [exact Hdepth|]. split; [reflexivity|]. split; [reflexivity|].
  split; [lia|].
  apply (icb_floating_validity Fixture.fixedFloatingPage (fun el => el) Hdepth
           7 7 6); [reflexivity | reflexivity | lia].
Defined.

(** The element 7 is absolutely positioned; as a floating element it is not
    its own anchor. *)
Lemma absolute_floating_not_own_anchor_witness :
  isAbsolutelyPositioned (Fixture.page Fixture.chrome) (Some 7) = true /\
  completion (validatedForPositioning 8 (Fixture.page Fixture.chrome) (Some 7)
                [".tip"; ".note"]) <> Return (Some 7).
Proof.
  split; [reflexivity|].
  apply (absolute_floating_not_own_anchor 8 (Fixture.page Fixture.chrome) 7
           [".tip"; ".note"]).
  reflexivity.
Defined.

(** The selector lists [".tip"] and [".note"] one after the other. *)
Lemma lookup_query_of_app_witness :
  [".tip"] <> [] /\ [".note"] <> [] /\
  queries (validatedForPositioning 8 (Fixture.page Fixture.chrome) (Some 6)
             ([".tip"] ++ [".note"]))
  = [JS.join ", " [".tip"] +:+ ", " +:+ JS.join ", " [".note"]].
Proof.
  split; [discriminate|]. split; [discriminate|].
  apply (lookup_query_of_app 8 (Fixture.page Fixture.chrome) 6 [".tip"] [".note"]);
    discriminate.
Defined.

(** The static element 8 and the floating element 6 share the block 2. *)
Lemma same_cb_validity_witness :
  offsetParent (Fixture.page Fixture.chrome) 8
  = offsetParent (Fixture.page Fixture.chrome) 6 /\
  exists valid,
    isValidAnchorElement 0 (Fixture.page Fixture.chrome) 8 6 = Some valid /\
    (valid = true <->
       isAbsolutelyPositioned (Fixture.page Fixture.chrome) (Some 8) = false /\
       ((exists cb, offsetParent (Fixture.page Fixture.chrome) 8 = Some cb /\
                    contains (Fixture.page Fixture.chrome) cb 8 = true) \/
        isContainingBlockICB (Fixture.page Fixture.chrome) 6 = true)).
Proof.
  split; [reflexivity|].
  apply (same_cb_validity 0 (Fixture.page Fixture.chrome) 8 6). reflexivity.
Defined.
